(** * Timeline synchronisation engine and chat front end of bot.py

    Shallow embedding of the subtitle-to-speech engine of [bot.py]:
    [srt_time_to_ms], [generate_tts], [fit_audio_to_slot],
    [preprocess_text] and the loop of [srt_to_audio].

    Modelling conventions.
    - Python strings are lists of Unicode code points ([list Z]); [len] of
      a str is the length of that list.
    - A pydub [AudioSegment] is a list of one-millisecond frames; its
      [len] is the number of frames, [a + b] is list concatenation (pydub's
      [__add__] appends with crossfade 0), [AudioSegment.silent(d)] is [d]
      zero frames and the slice [a[:n]] for [n > 0] is [firstn n a].
    - The external voice service (edge_tts plus decoding of the file it
      writes) is an oracle [edge_tts] that sees the history of all attempts
      made so far and the request; [None] is an exception in the attempt.
      pydub's [effects.speedup] is an oracle [effects_speedup]; [None] is an
      exception.
    - Progress messages to the chat ([update_status], [time.time()]) and
      the retry sleep do not touch the audio state and are left out.

    The chat front end ([start], [show_voice_page], [button_handler],
    [handle_text]) is embedded as functions on [context.user_data]: a
    keyboard is its list of button rows, a handler returns the new user
    data with the replies it sends, and Python's [int()] on a str is an
    oracle. *)

From Stdlib Require Import ZArith QArith Qminmax Lia.
From stdpp Require Import base list gmap strings.

Open Scope Z_scope.

(** ** Text as code points *)

Definition str := list Z.

(** The code points of an ASCII string literal. *)
Definition u (s : string) : str :=
  map (fun a => Z.of_nat (Ascii.nat_of_ascii a)) (String.list_ascii_of_string s).

(** MYANMAR SIGN SECTION (U+104B), the Burmese full stop. *)
Definition MM_SECTION : Z := 4171.
Definition NEWLINE : Z := 10.

Fixpoint is_prefix (p s : str) : bool :=
  match p, s with
  | [], _ => true
  | c :: p', d :: s' => (c =? d) && is_prefix p' s'
  | _ :: _, [] => false
  end.

(** [str.replace(old, new)] for a non-empty [old]: occurrences are
    replaced left to right without overlap.  The fuel is the length of
    the subject, enough since every step consumes at least one code point. *)
Fixpoint py_replace_fuel (fuel : nat) (old new s : str) : str :=
  match fuel with
  | O => s
  | S f =>
      match s with
      | [] => []
      | c :: s' =>
          if is_prefix old s
          then new ++ py_replace_fuel f old new (List.skipn (List.length old) s)
          else c :: py_replace_fuel f old new s'
      end
  end.

Definition py_replace (old new s : str) : str :=
  py_replace_fuel (List.length s) old new s.

(** [str.isspace] on one code point (Python's whitespace table). *)
Definition py_isspace (c : Z) : bool :=
  ((9 <=? c) && (c <=? 13)) || ((28 <=? c) && (c <=? 32)) ||
  (c =? 133) || (c =? 160) || (c =? 5760) ||
  ((8192 <=? c) && (c <=? 8202)) || (c =? 8232) || (c =? 8233) ||
  (c =? 8239) || (c =? 8287) || (c =? 12288).

Fixpoint lstrip (s : str) : str :=
  match s with
  | [] => []
  | c :: s' => if py_isspace c then lstrip s' else s
  end.

(** [str.strip()] *)
Definition py_strip (s : str) : str := rev (lstrip (rev (lstrip s))).

(** [preprocess_text] (bot.py lines 151-155). *)
Definition preprocess_text (text : str) : str :=
  let clean := py_replace (u "</i>") [] (py_replace (u "<i>") []
                 (py_replace (u "</b>") [] (py_replace (u "<b>") [] text))) in
  let clean := py_replace (u ")") [] (py_replace (u "(") []
                 (py_replace (u "]") [] (py_replace (u "[") [] clean))) in
  py_strip (py_replace (u ".") (u "." ++ [NEWLINE])
              (py_replace [MM_SECTION] [MM_SECTION; NEWLINE] clean)).

(** ** Cues as pysrt parses them *)

Record srt_time := SrtTime {
  hours : Z; minutes : Z; seconds : Z; milliseconds : Z
}.

Record cue := Cue {
  sub_index : Z; sub_start : srt_time; sub_end : srt_time; sub_text : str
}.

(** [srt_time_to_ms] (lines 99-100). *)
Definition srt_time_to_ms (t : srt_time) : Z :=
  (hours t * 3600 + minutes t * 60 + seconds t) * 1000 + milliseconds t.

(** ** Audio segments *)

Definition audio := list Z.

Definition len (a : audio) : Z := Z.of_nat (List.length a).

(** [AudioSegment.silent(duration=d)] *)
Definition silent (d : Z) : audio := List.repeat 0 (Z.to_nat d).

(** [a[:n]] for [n > 0] *)
Definition slice_to (a : audio) (n : Z) : audio := List.firstn (Z.to_nat n) a.

(** ** Synthesis requests and the job state *)

(** The cache key [(text, voice, rate_str)] of [generate_tts]. *)
Definition request : Type := (str * string * string)%type.


Definition RETRY_COUNT : nat := 3.

(** The local variables of [srt_to_audio] that outlive one iteration,
    plus the history of the calls made to the voice service. *)
Record tl_state := TlState {
  final_audio : audio;
  current_timeline_pos : Z;
  cache : gmap request audio;
  calls : list request
}.

(** Lines 161-163. *)
Definition init_state : tl_state := TlState (silent 0) 0 ∅ [].

(** ** Rate ladder and slot *)

(** [chars_per_sec > k] where [chars_per_sec = char_count / (slot/1000)]
    (line 198).  The caller has [slot > 0] (line 193), so the comparison
    is taken multiplied through by [slot/1000]. *)
Definition chars_per_sec_gt (char_count slot k : Z) : bool :=
  k * slot <? char_count * 1000.

(** Lines 197-203. *)
Definition smart_rate (char_count slot : Z) : string :=
  let rate_str := "+0%"%string in
  let rate_str := if chars_per_sec_gt char_count slot 15 then "+20%"%string else rate_str in
  let rate_str := if chars_per_sec_gt char_count slot 20 then "+40%"%string else rate_str in
  if chars_per_sec_gt char_count slot 25 then "+60%"%string else rate_str.

(** Lines 187-191: the slot, truncated to the start of the next cue
    ([subs[i+1]]) when that cue overlaps. *)
Definition strict_slot (start_ms end_ms : Z) (next : option cue) : Z :=
  let slot_duration := end_ms - start_ms in
  match next with
  | Some n =>
      let next_start := srt_time_to_ms (sub_start n) in
      if next_start <? end_ms then next_start - start_ms else slot_duration
  | None => slot_duration
  end.

(** Lines 180-184: fill the gap up to the cue's start with silence. *)
Definition fill_gap (start_ms : Z) (st : tl_state) : tl_state :=
  if current_timeline_pos st <? start_ms then
    let silence_gap := start_ms - current_timeline_pos st in
    TlState (final_audio st ++ silent silence_gap) start_ms (cache st) (calls st)
  else st.

Section Engine.

(** One attempt at the voice service: the history of earlier attempts and
    the request; [None] when the attempt raises. *)
Variable edge_tts : list request -> request -> option audio.

(** pydub's [effects.speedup(seg, playback_speed=ratio, ...)]; [None]
    when it raises. *)
Variable effects_speedup : audio -> Q -> option audio.

(** The [for attempt in range(RETRY_COUNT)] loop of [generate_tts]
    (lines 107-121): the first successful attempt returns. *)
Fixpoint tts_attempts (attempts : list nat) (key : request)
    (hist : list request) : option audio * list request :=
  match attempts with
  | [] => (None, hist)
  | _ :: more =>
      match edge_tts hist key with
      | Some a => (Some a, hist ++ [key])
      | None => tts_attempts more key (hist ++ [key])
      end
  end.

(** [generate_tts] (lines 102-123); the cache dict is threaded as state. *)
Definition generate_tts (text : str) (voice rate_str : string)
    (c : gmap request audio) (hist : list request)
    : audio * gmap request audio * list request :=
  let key := (text, voice, rate_str) in
  match c !! key with
  | Some a => (a, c, hist)
  | None =>
      match tts_attempts (seq 0 RETRY_COUNT) key hist with
      | (Some a, hist') => (a, <[key := a]> c, hist')
      | (None, hist') => (silent 500, c, hist')
      end
  end.

(** The playback speed of lines 135-139. *)
Definition compression_ratio (current_dur max_duration_ms : Z) : Q :=
  let ratio := (inject_Z current_dur / inject_Z max_duration_ms)%Q in
  if Qle_bool ratio 2 then ratio else 2%Q.

(** [fit_audio_to_slot] (lines 125-149), on its domain [max_duration_ms > 0]. *)
Definition fit_audio_to_slot (audio_seg : audio) (max_duration_ms : Z) : audio :=
  let current_dur := len audio_seg in
  if current_dur <=? max_duration_ms then audio_seg
  else
    let ratio := compression_ratio current_dur max_duration_ms in
    match effects_speedup audio_seg ratio with
    | Some compressed =>
        if max_duration_ms <? len compressed
        then slice_to compressed max_duration_ms
        else compressed
    | None => slice_to audio_seg max_duration_ms
    end.

(** Lines 186-211: everything after the gap filling. *)
Definition synth_cue (voice : string) (text : str) (start_ms end_ms : Z)
    (next : option cue) (st : tl_state) : tl_state :=
  let slot_duration := strict_slot start_ms end_ms next in
  if slot_duration <=? 0 then st
  else
    let char_count := Z.of_nat (List.length text) in
    let rate_str := smart_rate char_count slot_duration in
    match generate_tts text voice rate_str (cache st) (calls st) with
    | (raw_audio, c', hist') =>
        let fitted_audio := fit_audio_to_slot raw_audio slot_duration in
        TlState (final_audio st ++ fitted_audio)
                (current_timeline_pos st + len fitted_audio) c' hist'
    end.

(** The body of the [for i, sub in enumerate(subs)] loop (lines 166-211);
    [next] is [subs[i+1]] when it exists. *)
Definition loop_body (voice : string) (sub : cue) (next : option cue)
    (st : tl_state) : tl_state :=
  let text := preprocess_text (sub_text sub) in
  match text with
  | [] => st
  | _ =>
      let start_ms := srt_time_to_ms (sub_start sub) in
      let end_ms := srt_time_to_ms (sub_end sub) in
      synth_cue voice text start_ms end_ms next (fill_gap start_ms st)
  end.

Fixpoint sync_loop (voice : string) (subs : list cue) (st : tl_state) : tl_state :=
  match subs with
  | [] => st
  | sub :: rest => sync_loop voice rest (loop_body voice sub (head rest) st)
  end.

(** [srt_to_audio] (lines 157-214) on the parsed cue list; the result's
    [final_audio] is the buffer handed to [export]. *)
Definition srt_to_audio (subs : list cue) (voice : string) : tl_state :=
  sync_loop voice subs init_state.

(** The loop as a transition system on (state, cues still to visit). *)
Inductive sync_step (voice : string) : tl_state * list cue -> tl_state * list cue -> Prop :=
| SyncStep st sub rest :
    sync_step voice (st, sub :: rest) (loop_body voice sub (head rest) st, rest).

End Engine.

(** ** The spec's duration estimate

    [estimate(text) = max(minSeconds, charCount / charsPerSecond)] with the
    spec's defaults 0.4 s and 14 chars/s (spec section 4.3).  The source
    computes no estimate; this definition follows the spec's words and is
    used only to state the spec's conditions on [est]. *)
Definition spec_estimate (text : str) : Q :=
  let x := (inject_Z (Z.of_nat (List.length text)) / 14)%Q in
  if Qle_bool x (2 # 5) then (2 # 5)%Q else x.


(** ** Concrete services and cues for the examples *)

(** A cue time given in milliseconds. *)
Definition at_ms (ms : Z) : srt_time := SrtTime 0 0 0 ms.

(** A voice service that always answers with [n] ms of (non-silent) speech. *)
Definition tts_speaks (n : Z) (_ : list request) (_ : request) : option audio :=
  Some (List.repeat 1 (Z.to_nat n)).

(** A voice service that is down. *)
Definition tts_down (_ : list request) (_ : request) : option audio := None.

(** A time-compression that always fails. *)
Definition speedup_fails (_ : audio) (_ : Q) : option audio := None.

(** A time-compression that halves the length. *)
Definition speedup_halves (a : audio) (_ : Q) : option audio :=
  Some (List.firstn (Nat.div (List.length a) 2) a).

Definition short_line : str := u "Yes".



(** ** Preconditions used by the timeline properties *)


(** A SubRip time with fields in their usual ranges. *)
Definition time_normalized (t : srt_time) : bool :=
  (0 <=? hours t) && (0 <=? minutes t) && (minutes t <? 60) &&
  (0 <=? seconds t) && (seconds t <? 60) &&
  (0 <=? milliseconds t) && (milliseconds t <? 1000).


(** The characters [preprocess_text] deletes. *)
Definition is_bracket (c : Z) : bool :=
  (c =? 91) || (c =? 93) || (c =? 40) || (c =? 41).

(** ** Chat front end *)

Definition DEFAULT_VOICE : string := "my-MM-ThihaNeural".

(** [VOICE_CATALOG] (lines 31-71), in the dict's insertion order; the
    labels start with a flag written as two regional-indicator code points. *)
Definition VOICE_CATALOG : list (str * string) := [
  ([127474; 127474] ++ u " MM Male (Thiha)", "my-MM-ThihaNeural"%string);
  ([127474; 127474] ++ u " MM Female (Nilar)", "my-MM-NilarNeural"%string);
  ([127482; 127480] ++ u " US Male (Andrew)", "en-US-AndrewNeural"%string);
  ([127482; 127480] ++ u " US Male (Brian)", "en-US-BrianNeural"%string);
  ([127482; 127480] ++ u " US Male (Guy)", "en-US-GuyNeural"%string);
  ([127482; 127480] ++ u " US Female (Jenny)", "en-US-JennyNeural"%string);
  ([127482; 127480] ++ u " US Female (Ana)", "en-US-AnaNeural"%string);
  ([127468; 127463] ++ u " UK Male (Ryan)", "en-GB-RyanNeural"%string);
  ([127468; 127463] ++ u " UK Female (Libby)", "en-GB-LibbyNeural"%string);
  ([127468; 127463] ++ u " UK Female (Sonia)", "en-GB-SoniaNeural"%string);
  ([127462; 127482] ++ u " AU Female (Natasha)", "en-AU-NatashaNeural"%string);
  ([127467; 127479] ++ u " French (Remy)", "fr-FR-RemyMultilingualNeural"%string);
  ([127467; 127479] ++ u " French (Vivienne)", "fr-FR-VivienneMultilingualNeural"%string);
  ([127470; 127481] ++ u " Italian (Giuseppe)", "it-IT-GiuseppeNeural"%string);
  ([127470; 127481] ++ u " Italian (Elsa)", "it-IT-ElsaNeural"%string);
  ([127465; 127466] ++ u " German (Conrad)", "de-DE-ConradNeural"%string);
  ([127465; 127466] ++ u " German (Katja)", "de-DE-KatjaNeural"%string);
  ([127466; 127480] ++ u " Spanish (Alvaro)", "es-ES-AlvaroNeural"%string);
  ([127466; 127480] ++ u " Spanish (Elvira)", "es-ES-ElviraNeural"%string);
  ([127479; 127482] ++ u " Russian (Dmitry)", "ru-RU-DmitryNeural"%string);
  ([127471; 127477] ++ u " Japanese (Keita)", "ja-JP-KeitaNeural"%string);
  ([127471; 127477] ++ u " Japanese (Nanami)", "ja-JP-NanamiNeural"%string);
  ([127472; 127479] ++ u " Korean (InJoon)", "ko-KR-InJoonNeural"%string);
  ([127472; 127479] ++ u " Korean (SunHi)", "ko-KR-SunHiNeural"%string);
  ([127464; 127475] ++ u " Chinese (Yunxi)", "zh-CN-YunxiNeural"%string);
  ([127464; 127475] ++ u " Chinese (Xiaoxiao)", "zh-CN-XiaoxiaoNeural"%string);
  ([127481; 127469] ++ u " Thai (Niwat)", "th-TH-NiwatNeural"%string);
  ([127481; 127469] ++ u " Thai (Premwadee)", "th-TH-PremwadeeNeural"%string);
  ([127483; 127475] ++ u " Viet (NamMinh)", "vi-VN-NamMinhNeural"%string);
  ([127470; 127465] ++ u " Indo (Ardi)", "id-ID-ArdiNeural"%string)
].

(** [d[k]] / [k in d] on a dict kept as an association list. *)
Fixpoint dict_get (k : str) (d : list (str * string)) : option string :=
  match d with
  | [] => None
  | (k', v) :: d' => if bool_decide (k = k') then Some v else dict_get k d'
  end.

(** [needle in hay] for strings. *)
Fixpoint py_contains (needle hay : str) : bool :=
  is_prefix needle hay ||
  match hay with [] => false | _ :: t => py_contains needle t end.

(** [s.split(sep)] for a one-character separator. *)
Fixpoint py_split_char (sep : Z) (s : str) : list str :=
  match s with
  | [] => [[]]
  | c :: t =>
      let rest := py_split_char sep t in
      if c =? sep then [] :: rest
      else match rest with r :: rs => (c :: r) :: rs | [] => [[c]] end
  end.

(** Decimal digits of a non-negative [n], least significant first; the
    fuel bounds the number of digits. *)
Fixpoint digits_rev (fuel : nat) (n : Z) : str :=
  match fuel with
  | O => []
  | S f => (48 + n mod 10) :: (if n <? 10 then [] else digits_rev f (n / 10))
  end.

(** [str(n)] / an int in an f-string. *)
Definition py_str_Z (n : Z) : str :=
  let d := rev (digits_rev (S (Z.to_nat (Z.log2 (Z.abs n)))) (Z.abs n)) in
  if n <? 0 then 45 :: d else d.

(** A clamped slice bound of [l[i:j]] (negative bounds count from the end). *)
Definition py_slice_bound (n i : Z) : Z :=
  if i <? 0 then Z.max 0 (i + n) else Z.min i n.

(** [l[i:j]] *)
Definition py_slice {A : Type} (l : list A) (i j : Z) : list A :=
  let n := Z.of_nat (List.length l) in
  let a := py_slice_bound n i in
  let b := py_slice_bound n j in
  List.firstn (Z.to_nat (b - a)) (List.skipn (Z.to_nat a) l).

Definition ITEMS_PER_PAGE : Z := 10.

Record button := Button { btn_text : str; btn_data : str }.

(** The two-column voice rows of [show_voice_page] (lines 247-256). *)
Fixpoint voice_rows (items : list str) : list (list button) :=
  match items with
  | [] => []
  | [a] => [[Button a (u "set_" ++ a)]]
  | a :: b :: t => [Button a (u "set_" ++ a); Button b (u "set_" ++ b)] :: voice_rows t
  end.

(** One voice button (lines 251, 254). *)
Definition voice_button (k : str) : button := Button k (u "set_" ++ k).

(** The navigation row (lines 258-264). *)
Definition nav_row (page_num total_pages : Z) : list button :=
  (if 0 <? page_num
   then [Button ([11013; 65039] ++ u " Back") (u "page_" ++ py_str_Z (page_num - 1))]
   else []) ++
  [Button ([128196; 32] ++ py_str_Z (page_num + 1) ++ u "/" ++ py_str_Z total_pages) (u "noop")] ++
  (if page_num <? total_pages - 1
   then [Button (u "Next " ++ [10145; 65039]) (u "page_" ++ py_str_Z (page_num + 1))]
   else []).

(** [voice_keys[start:end]] (lines 243-245). *)
Definition page_items (voice_keys : list str) (page_num : Z) : list str :=
  let start := page_num * ITEMS_PER_PAGE in
  py_slice voice_keys start (start + ITEMS_PER_PAGE).

(** [math.ceil(len(voice_keys) / ITEMS_PER_PAGE)] as a ceiling of the
    exact quotient (the float quotient of two small integers is an integer
    exactly when the exact one is, so the ceiling is the same). *)
Definition total_pages_of (n : Z) : Z := - ((- n) / ITEMS_PER_PAGE).

(** The keyboard built by [show_voice_page] (lines 239-268); the message
    it is sent with is fixed. *)
Definition voice_page_markup (voice_keys : list str) (page_num : Z) : list (list button) :=
  let total_pages := total_pages_of (Z.of_nat (List.length voice_keys)) in
  voice_rows (page_items voice_keys page_num) ++ [nav_row page_num total_pages].

Definition show_voice_page (page_num : Z) : list (list button) :=
  voice_page_markup (map fst VOICE_CATALOG) page_num.

(** The entries of [context.user_data] the bot uses. *)
Record user_data := UserData { ud_voice : option string; ud_srt_text_mode : option bool }.

(** [start] (lines 217-219): [user_data.clear()], then the default voice. *)
Definition start_user_data (_ : user_data) : user_data := UserData (Some DEFAULT_VOICE) None.

(** [context.user_data.get("voice", DEFAULT_VOICE)] (lines 308, 333). *)
Definition user_voice (ud : user_data) : string :=
  match ud_voice ud with Some v => v | None => DEFAULT_VOICE end.

(** What a callback answer does on the chat side. *)
Inductive bot_reply :=
| AnswerQuery (text : option str)
| EditMessage (text : str)
| EditMarkup (text : str) (markup : list (list button)).

Definition SELECT_VOICE_MSG : str := [128483] ++ u " **Select a Voice:**".

Definition voice_set_msg (key : str) : str :=
  [9989] ++ u " **Voice Set!**" ++ [10; 10] ++ u "Now using: `" ++ key ++ u "`" ++
  [10; 10] ++ u "Send your SRT file now.".

Definition text_mode_msg : str :=
  [128221] ++ u " **Text Mode Active**" ++ [10; 10] ++
  u "Paste your subtitle text (with timestamps) here.".

Section Handlers.

(** Python's [int()] on a str: [None] when it raises [ValueError]. *)
Variable py_int : str -> option Z.

(** [button_handler] (lines 274-299) for the catalog [catalog]: the new
    user data, the replies in order, and whether an exception escaped. *)
Definition button_handler (catalog : list (str * string)) (data : str) (ud : user_data)
    : user_data * list bot_reply * bool :=
  if is_prefix (u "page_") data then
    match py_split_char 95 data with
    | _ :: p :: _ =>
        match py_int p with
        | Some page =>
            (ud, [AnswerQuery None; EditMarkup SELECT_VOICE_MSG (voice_page_markup (map fst catalog) page)], false)
        | None => (ud, [AnswerQuery None], true)
        end
    | _ => (ud, [AnswerQuery None], true)
    end
  else if is_prefix (u "set_") data then
    let key := py_replace (u "set_") [] data in
    match dict_get key catalog with
    | Some v =>
        (UserData (Some v) (ud_srt_text_mode ud),
         [AnswerQuery (Some (u "Selected: " ++ key)); EditMessage (voice_set_msg key)], false)
    | None => (ud, [], false)
    end
  else if bool_decide (data = u "cmd_srtsms") then
    (UserData (ud_voice ud) (Some true), [AnswerQuery None; EditMessage text_mode_msg], false)
  else if bool_decide (data = u "noop") then (ud, [AnswerQuery None], false)
  else (ud, [], false).

End Handlers.

(** The two things [handle_text] (lines 331-335) can do with a message. *)
Inductive text_job :=
| DubSrtText (voice : string) (srt_text : str)
| SpeakText (voice : string) (text : str).

Definition handle_text_route (ud : user_data) (msg : str) : text_job :=
  let text := py_strip msg in
  let voice := user_voice ud in
  if match ud_srt_text_mode ud with Some b => b | None => false end
     && py_contains (u "-->") text
  then DubSrtText voice text
  else SpeakText voice text.

(** The keyboard [start] sends (lines 221-225). *)
Definition start_keyboard : list (list button) :=
  [[Button ([127908] ++ u " Select Voice") (u "page_0")];
   [Button ([128221] ++ u " Copy-Paste SRT Mode") (u "cmd_srtsms")];
   [Button ([8505; 65039] ++ u " Help") (u "cmd_help")]].

(** The updates that write [context.user_data]: the /start command and a
    button press ([handle_srt] and [handle_text] only read it). *)
Inductive ui_event := Start | Press (data : str).

Definition apply_event (py_int : str -> option Z) (ud : user_data) (e : ui_event) : user_data :=
  match e with
  | Start => start_user_data ud
  | Press data => fst (fst (button_handler py_int VOICE_CATALOG data ud))
  end.

(** The voice a text message is spoken or dubbed with. *)
Definition text_job_voice (j : text_job) : string :=
  match j with DubSrtText v _ => v | SpeakText v _ => v end.

(** * Proofs *)

(** ** Audio lengths *)




Lemma len_slice_to (a : audio) (n : Z) : 0 <= n -> len (slice_to a n) <= n.
Proof.
  intros H. unfold len, slice_to. rewrite List.length_firstn. lia.
Qed.

(** ** The gap filling *)

Lemma fill_gap_pos (start_ms : Z) (st : tl_state) :
  current_timeline_pos (fill_gap start_ms st) = Z.max (current_timeline_pos st) start_ms.
Proof.
  unfold fill_gap. destruct (Z.ltb_spec (current_timeline_pos st) start_ms); simpl; lia.
Qed.

Lemma fill_gap_calls (start_ms : Z) (st : tl_state) :
  calls (fill_gap start_ms st) = calls st /\ cache (fill_gap start_ms st) = cache st.
Proof. unfold fill_gap. destruct (_ <? _); auto. Qed.


Section EngineFacts.

Variable edge_tts : list request -> request -> option audio.
Variable effects_speedup : audio -> Q -> option audio.









Lemma sync_step_run voice (cfg cfg' : tl_state * list cue) :
  rtc (sync_step edge_tts effects_speedup voice) cfg cfg' ->
  sync_loop edge_tts effects_speedup voice (snd cfg') (fst cfg') =
  sync_loop edge_tts effects_speedup voice (snd cfg) (fst cfg).
Proof.
  induction 1 as [|x y z Hst _ IH]; auto.
  rewrite IH. inversion Hst; subst. reflexivity.
Qed.


End EngineFacts.

(** ** Calls to the voice service *)

Section CallFacts.

Variable edge_tts : list request -> request -> option audio.
Variable effects_speedup : audio -> Q -> option audio.

Lemma tts_attempts_calls (attempts : list nat) (key : request) (hist : list request) :
  exists k, snd (tts_attempts edge_tts attempts key hist) = hist ++ List.repeat key k.
Proof.
  revert hist. induction attempts as [|a more IH]; intros hist; simpl.
  - exists O. simpl. by rewrite app_nil_r.
  - destruct (edge_tts hist key).
    + exists 1%nat. reflexivity.
    + destruct (IH (hist ++ [key])) as [k Hk]. exists (S k). rewrite Hk.
      rewrite <- app_assoc. reflexivity.
Qed.

Lemma generate_tts_calls (text : str) (voice rate_str : string) (c : gmap request audio) (hist : list request) :
  exists k, snd (generate_tts edge_tts text voice rate_str c hist)
            = hist ++ List.repeat (text, voice, rate_str) k.
Proof.
  unfold generate_tts. destruct (c !! _).
  - exists O. simpl. by rewrite app_nil_r.
  - destruct (tts_attempts_calls (seq 0 RETRY_COUNT) (text, voice, rate_str) hist) as [k Hk].
    destruct (tts_attempts _ _ _ _) as [[a|] h']; simpl in *; subst; eauto.
Qed.





End CallFacts.

(** ** Claims *)






(** C9: a cue (with non-empty text) whose effective slot is zero or
    negative only gets the gap filling: the iteration's result is the
    gap-filled state, no call reaches the voice service, the cache is
    untouched and the cursor is [max cursor start]. *)
Theorem nonpositive_slot_skipped edge_tts effects_speedup voice
    (sub : cue) (next : option cue) (st : tl_state) :
  preprocess_text (sub_text sub) <> [] ->
  strict_slot (srt_time_to_ms (sub_start sub)) (srt_time_to_ms (sub_end sub)) next <= 0 ->
  let st' := loop_body edge_tts effects_speedup voice sub next st in
  st' = fill_gap (srt_time_to_ms (sub_start sub)) st /\
  calls st' = calls st /\ cache st' = cache st /\
  current_timeline_pos st' = Z.max (current_timeline_pos st) (srt_time_to_ms (sub_start sub)).
Proof.
  intros Hne Hs st'. subst st'.
  assert (loop_body edge_tts effects_speedup voice sub next st
          = fill_gap (srt_time_to_ms (sub_start sub)) st) as E.
  { unfold loop_body. destruct (preprocess_text (sub_text sub)); [congruence|].
    unfold synth_cue. destruct (Z.leb_spec (strict_slot (srt_time_to_ms (sub_start sub))
                          (srt_time_to_ms (sub_end sub)) next) 0); [reflexivity|lia]. }
  rewrite E. destruct (fill_gap_calls (srt_time_to_ms (sub_start sub)) st).
  repeat split; auto. apply fill_gap_pos.
Qed.

Lemma nonpositive_slot_skipped_witness :
  preprocess_text short_line <> [] /\
  strict_slot (srt_time_to_ms (at_ms 2000)) (srt_time_to_ms (at_ms 2000)) None <= 0 /\
  loop_body tts_down speedup_fails "v"%string (Cue 1 (at_ms 2000) (at_ms 2000) short_line) None init_state
    = fill_gap 2000 init_state.
Proof.
  assert (Hne : preprocess_text (sub_text (Cue 1 (at_ms 2000) (at_ms 2000) short_line)) <> [])
    by (vm_compute; discriminate).
  assert (Hs : strict_slot (srt_time_to_ms (sub_start (Cue 1 (at_ms 2000) (at_ms 2000) short_line)))
                 (srt_time_to_ms (sub_end (Cue 1 (at_ms 2000) (at_ms 2000) short_line))) None <= 0)
    by (vm_compute; discriminate).
  split; [exact Hne|]. split; [exact Hs|].
  exact (proj1 (nonpositive_slot_skipped tts_down speedup_fails "v"%string _ None init_state Hne Hs)).
Defined.

Lemma synth_cue_extends edge_tts effects_speedup voice text start_ms end_ms next (st : tl_state) :
  exists rest, final_audio (synth_cue edge_tts effects_speedup voice text start_ms end_ms next st)
               = final_audio st ++ rest.
Proof.
  unfold synth_cue. destruct (_ <=? 0).
  - exists []. by rewrite app_nil_r.
  - destruct (generate_tts _ _ _ _ _ _) as [[raw c'] h']. simpl. eauto.
Qed.

(** C5 (counterexample): a cue starting at 5000 ms on an empty timeline
    gets 5000 ms of silence before it, longer than [min(5000, 800)]. *)
Lemma gap_silence_not_capped :
  let sub := Cue 1 (at_ms 5000) (at_ms 6000) short_line in
  final_audio (srt_to_audio (tts_speaks 300) speedup_fails [sub] "v"%string)
    = silent 5000 ++ List.repeat 1 300 /\
  len (silent (srt_time_to_ms (sub_start sub) - current_timeline_pos init_state)) = 5000 /\
  Z.min (srt_time_to_ms (sub_start sub) - current_timeline_pos init_state) 800 = 800.
Proof. vm_compute. split; [reflexivity|]. split; reflexivity. Qed.

(** C5 (amended): when a cue with non-empty text starts after the cursor,
    the whole gap [start - cursor] is appended as silence (no cap), the
    cursor moves to the cue's start, and the cue's speech follows. *)
Theorem gap_filled_with_full_silence edge_tts effects_speedup voice
    (sub : cue) (next : option cue) (st : tl_state) :
  preprocess_text (sub_text sub) <> [] ->
  current_timeline_pos st < srt_time_to_ms (sub_start sub) ->
  current_timeline_pos (fill_gap (srt_time_to_ms (sub_start sub)) st) = srt_time_to_ms (sub_start sub) /\
  exists rest,
    final_audio (loop_body edge_tts effects_speedup voice sub next st)
    = final_audio st ++ silent (srt_time_to_ms (sub_start sub) - current_timeline_pos st) ++ rest.
Proof.
  intros Hne Hlt. split; [rewrite fill_gap_pos; lia|].
  unfold loop_body. destruct (preprocess_text (sub_text sub)) as [|c cs]; [congruence|].
  match goal with |- context [synth_cue ?e ?s ?v ?t ?a ?b ?n ?x] =>
    destruct (synth_cue_extends e s v t a b n x) as [rest Hr] end.
  exists rest. rewrite Hr. unfold fill_gap.
  destruct (Z.ltb_spec (current_timeline_pos st) (srt_time_to_ms (sub_start sub))); [|lia].
  simpl. by rewrite <- app_assoc.
Qed.

Lemma gap_filled_with_full_silence_witness :
  preprocess_text short_line <> [] /\
  current_timeline_pos init_state < srt_time_to_ms (at_ms 5000) /\
  current_timeline_pos (fill_gap (srt_time_to_ms (at_ms 5000)) init_state) = 5000.
Proof.
  assert (Hne : preprocess_text (sub_text (Cue 1 (at_ms 5000) (at_ms 6000) short_line)) <> [])
    by (vm_compute; discriminate).
  assert (Hlt : current_timeline_pos init_state
                < srt_time_to_ms (sub_start (Cue 1 (at_ms 5000) (at_ms 6000) short_line)))
    by (vm_compute; reflexivity).
  split; [exact Hne|]. split; [exact Hlt|].
  exact (proj1 (gap_filled_with_full_silence tts_down speedup_fails "v"%string _ None init_state Hne Hlt)).
Defined.

Lemma tts_attempts_all_fail (edge_tts : list request -> request -> option audio)
    (attempts : list nat) (key : request) (hist : list request) :
  (forall k, (k < List.length attempts)%nat ->
     edge_tts (hist ++ List.repeat key k) key = None) ->
  tts_attempts edge_tts attempts key hist = (None, hist ++ List.repeat key (List.length attempts)).
Proof.
  revert hist. induction attempts as [|a more IH]; intros hist Hf; simpl.
  - by rewrite app_nil_r.
  - pose proof (Hf 0%nat ltac:(simpl; lia)) as H0. simpl in H0.
    rewrite app_nil_r in H0. rewrite H0. rewrite IH.
    + by rewrite <- app_assoc.
    + intros k Hk. rewrite <- app_assoc. apply (Hf (S k)). simpl. lia.
Qed.

(** C6: when the key is not cached and the voice service fails on each of
    the [RETRY_COUNT = 3] attempts, [generate_tts] returns 500 ms of
    silence (it does not raise), leaves the cache as it was, and the three
    attempts are the only calls made. *)
Theorem generate_tts_fail_soft (edge_tts : list request -> request -> option audio) (text : str) (voice rate_str : string)
    (c : gmap request audio) (hist : list request) :
  c !! (text, voice, rate_str) = None ->
  (forall k, (k < RETRY_COUNT)%nat ->
     edge_tts (hist ++ List.repeat (text, voice, rate_str) k) (text, voice, rate_str) = None) ->
  generate_tts edge_tts text voice rate_str c hist
    = (silent 500, c, hist ++ List.repeat (text, voice, rate_str) RETRY_COUNT) /\
  len (silent 500) = 500.
Proof.
  intros Hc Hf. split; [|reflexivity].
  unfold generate_tts. rewrite Hc.
  rewrite (tts_attempts_all_fail edge_tts (seq 0 RETRY_COUNT)); [reflexivity|].
  rewrite length_seq. exact Hf.
Qed.

Lemma generate_tts_fail_soft_witness :
  (∅ : gmap request audio) !! (short_line, "v"%string, "+0%"%string) = None /\
  generate_tts tts_down short_line "v" "+0%" ∅ []
    = (silent 500, ∅, List.repeat (short_line, "v"%string, "+0%"%string) RETRY_COUNT).
Proof.
  assert (Hc : (∅ : gmap request audio) !! (short_line, "v"%string, "+0%"%string) = None)
    by reflexivity.
  assert (Hf : forall k, (k < RETRY_COUNT)%nat ->
            tts_down ([] ++ List.repeat (short_line, "v"%string, "+0%"%string) k)
                     (short_line, "v"%string, "+0%"%string) = None)
    by (intros; reflexivity).
  split; [exact Hc|].
  exact (proj1 (generate_tts_fail_soft tts_down short_line "v" "+0%" ∅ [] Hc Hf)).
Defined.

(** C7: for a positive slot, [fit_audio_to_slot] returns audio no longer
    than the slot; audio that fits is returned unchanged; otherwise the
    playback speed handed to the time-compression is above 1 and at most
    2.0, an over-long compressed result is cut to the slot, and a failing
    compression falls back to cutting the input to the slot. *)
Theorem fit_audio_to_slot_spec effects_speedup (audio_seg : audio) (max_duration_ms : Z) :
  0 < max_duration_ms ->
  len (fit_audio_to_slot effects_speedup audio_seg max_duration_ms) <= max_duration_ms /\
  (len audio_seg <= max_duration_ms ->
     fit_audio_to_slot effects_speedup audio_seg max_duration_ms = audio_seg) /\
  (max_duration_ms < len audio_seg ->
     let ratio := compression_ratio (len audio_seg) max_duration_ms in
     (1 < ratio)%Q /\ (ratio <= 2)%Q /\
     (effects_speedup audio_seg ratio = None ->
        fit_audio_to_slot effects_speedup audio_seg max_duration_ms
        = slice_to audio_seg max_duration_ms) /\
     (forall compressed, effects_speedup audio_seg ratio = Some compressed ->
        fit_audio_to_slot effects_speedup audio_seg max_duration_ms
        = if max_duration_ms <? len compressed
          then slice_to compressed max_duration_ms else compressed)).
Proof.
  intros Hpos. unfold fit_audio_to_slot.
  destruct (Z.leb_spec (len audio_seg) max_duration_ms) as [Hle|Hgt].
  - split; [exact Hle|]. split; [reflexivity|]. lia.
  - split; [|split; [lia|]].
    + destruct (effects_speedup _ _) as [comp|].
      * destruct (Z.ltb_spec max_duration_ms (len comp)); [apply len_slice_to; lia|lia].
      * apply len_slice_to; lia.
    + intros _. simpl.
      split; [|split; [|split]].
      * unfold compression_ratio.
        destruct (Qle_bool _ 2) eqn:E.
        -- unfold Qlt, Qdiv, Qmult, Qinv, inject_Z. simpl.
           destruct max_duration_ms as [|m|m]; try lia. simpl. lia.
        -- unfold Qlt. simpl. lia.
      * unfold compression_ratio.
        destruct (Qle_bool _ 2) eqn:E.
        -- apply Qle_bool_iff, E.
        -- apply Qle_refl.
      * intros H. rewrite H. reflexivity.
      * intros comp H. rewrite H. reflexivity.
Qed.

Lemma fit_audio_to_slot_spec_witness :
  0 < 100 /\
  len (fit_audio_to_slot speedup_halves (List.repeat 1 300) 100) <= 100.
Proof.
  assert (H : 0 < 100) by lia. split; [exact H|].
  exact (proj1 (fit_audio_to_slot_spec speedup_halves (List.repeat 1 300) 100 H)).
Defined.

(** The rate ladder answers "+0%" whenever the spec's estimate equals the
    slot in seconds. *)
Lemma smart_rate_at_estimate (text : str) (slot : Z) :
  (spec_estimate text == inject_Z slot / 1000)%Q ->
  0 < slot /\ smart_rate (Z.of_nat (List.length text)) slot = "+0%"%string.
Proof.
  unfold spec_estimate. set (c := Z.of_nat (List.length text)).
  assert (0 <= c) by (unfold c; lia).
  destruct (Qle_bool (inject_Z c / 14) (2 # 5)) eqn:E; intros Heq.
  - apply Qle_bool_iff in E.
    unfold Qle, Qeq, Qdiv, Qmult, Qinv, inject_Z in *. simpl in *.
    assert (slot = 400) by lia. assert (c * 5 <= 28) by lia.
    split; [lia|]. unfold smart_rate, chars_per_sec_gt.
    destruct (Z.ltb_spec (15 * slot) (c * 1000)); [lia|].
    destruct (Z.ltb_spec (20 * slot) (c * 1000)); [lia|].
    destruct (Z.ltb_spec (25 * slot) (c * 1000)); [lia|reflexivity].
  - apply not_true_iff_false in E. rewrite Qle_bool_iff in E.
    apply Qnot_le_lt in E.
    unfold Qlt, Qeq, Qdiv, Qmult, Qinv, inject_Z in *. simpl in *.
    destruct c as [|p|p]; simpl in *; try lia.
    split; [lia|]. unfold smart_rate, chars_per_sec_gt.
    destruct (Z.ltb_spec (15 * slot) (Z.pos p * 1000)); [lia|].
    destruct (Z.ltb_spec (20 * slot) (Z.pos p * 1000)); [lia|].
    destruct (Z.ltb_spec (25 * slot) (Z.pos p * 1000)); [lia|reflexivity].
Qed.

Lemma loop_body_nonempty edge_tts effects_speedup voice (sub : cue) (next : option cue) (st : tl_state) :
  preprocess_text (sub_text sub) <> [] ->
  loop_body edge_tts effects_speedup voice sub next st
  = synth_cue edge_tts effects_speedup voice (preprocess_text (sub_text sub))
      (srt_time_to_ms (sub_start sub)) (srt_time_to_ms (sub_end sub)) next
      (fill_gap (srt_time_to_ms (sub_start sub)) st).
Proof.
  intros Hne. unfold loop_body. destruct (preprocess_text (sub_text sub)); [congruence|reflexivity].
Qed.

(** C8: for a cue whose estimated duration (the spec's
    [max(0.4, charCount / 14)] seconds over its preprocessed text) equals
    its slot in seconds, the rate is "+0%": every call the iteration makes
    to the voice service carries the cue's preprocessed text, unchanged,
    at rate "+0%". *)
Theorem natural_fit_at_boundary edge_tts effects_speedup voice
    (sub : cue) (next : option cue) (st : tl_state) :
  let text := preprocess_text (sub_text sub) in
  let slot := strict_slot (srt_time_to_ms (sub_start sub)) (srt_time_to_ms (sub_end sub)) next in
  text <> [] ->
  (spec_estimate text == inject_Z slot / 1000)%Q ->
  smart_rate (Z.of_nat (List.length text)) slot = "+0%"%string /\
  exists k, calls (loop_body edge_tts effects_speedup voice sub next st)
            = calls st ++ List.repeat (text, voice, "+0%"%string) k.
Proof.
  intros text slot Hne Heq.
  destruct (smart_rate_at_estimate text slot Heq) as [Hpos Hrate].
  split; [exact Hrate|].
  rewrite (loop_body_nonempty edge_tts effects_speedup voice sub next st Hne).
  unfold synth_cue. fold text slot.
  destruct (Z.leb_spec slot 0) as [Hs|Hs]; [lia|].
  rewrite Hrate.
  destruct (fill_gap_calls (srt_time_to_ms (sub_start sub)) st) as [Hc _].
  match goal with |- context [generate_tts ?e ?t ?v ?rs ?c ?h] =>
    destruct (generate_tts_calls e t v rs c h) as [k Hk];
    destruct (generate_tts e t v rs c h) as [[raw c'] h'] eqn:Hg end.
  cbn [snd calls] in Hk |- *. exists k. rewrite Hk, Hc. reflexivity.
Qed.

Lemma natural_fit_at_boundary_witness :
  let sub := Cue 1 (at_ms 0) (at_ms 1000) (u "fourteen chars") in
  preprocess_text (sub_text sub) <> [] /\
  (spec_estimate (preprocess_text (sub_text sub)) == inject_Z 1000 / 1000)%Q /\
  smart_rate 14 1000 = "+0%"%string.
Proof.
  assert (Hne : preprocess_text (sub_text (Cue 1 (at_ms 0) (at_ms 1000) (u "fourteen chars"))) <> [])
    by (vm_compute; discriminate).
  assert (Heq : (spec_estimate (preprocess_text (sub_text (Cue 1 (at_ms 0) (at_ms 1000) (u "fourteen chars"))))
                 == inject_Z (strict_slot (srt_time_to_ms (sub_start (Cue 1 (at_ms 0) (at_ms 1000) (u "fourteen chars"))))
                                (srt_time_to_ms (sub_end (Cue 1 (at_ms 0) (at_ms 1000) (u "fourteen chars")))) None) / 1000)%Q)
    by (vm_compute; reflexivity).
  split; [exact Hne|]. split; [exact Heq|].
  exact (proj1 (natural_fit_at_boundary tts_down speedup_fails "v"%string _ None init_state Hne Heq)).
Defined.








(** * Further properties of the engine *)

Section MoreEngine.

Variable edge_tts : list request -> request -> option audio.
Variable effects_speedup : audio -> Q -> option audio.

Lemma fit_len_le (a : audio) (m : Z) :
  0 < m -> len (fit_audio_to_slot effects_speedup a m) <= m.
Proof.
  intros Hm. unfold fit_audio_to_slot.
  destruct (Z.leb_spec (len a) m); [lia|].
  destruct (effects_speedup _ _) as [comp|].
  - destruct (Z.ltb_spec m (len comp)); [apply len_slice_to; lia|lia].
  - apply len_slice_to; lia.
Qed.

(** X1: the retry loop returns the answer of the first attempt that
    succeeds: after [k < 3] failed attempts and a success, [generate_tts]
    returns that audio, stores it in the cache under the request, and has
    called the service exactly [k + 1] times. *)
Theorem generate_tts_first_success (text : str) (voice rate_str : string)
    (c : gmap request audio) (hist : list request) (k : nat) (a : audio) :
  c !! (text, voice, rate_str) = None ->
  (k < RETRY_COUNT)%nat ->
  (forall j, (j < k)%nat ->
     edge_tts (hist ++ List.repeat (text, voice, rate_str) j) (text, voice, rate_str) = None) ->
  edge_tts (hist ++ List.repeat (text, voice, rate_str) k) (text, voice, rate_str) = Some a ->
  generate_tts edge_tts text voice rate_str c hist
    = (a, <[(text, voice, rate_str) := a]> c, hist ++ List.repeat (text, voice, rate_str) (S k)).
Proof.
  intros Hc Hk Hf Hs. unfold generate_tts. rewrite Hc.
  assert (forall (attempts : list nat) (h : list request) (j : nat),
            (k < j + List.length attempts)%nat -> (j <= k)%nat ->
            h = hist ++ List.repeat (text, voice, rate_str) j ->
            tts_attempts edge_tts attempts (text, voice, rate_str) h
            = (Some a, hist ++ List.repeat (text, voice, rate_str) (S k))) as Gen.
  { induction attempts as [|x more IH]; intros h j Hlen Hj ->; simpl in *; [lia|].
    destruct (Nat.eq_dec j k) as [->|Hne].
    - rewrite Hs. rewrite <- app_assoc. f_equal. f_equal.
      change (List.repeat (text, voice, rate_str) (S k))
        with ((text, voice, rate_str) :: List.repeat (text, voice, rate_str) k).
      rewrite List.repeat_cons. reflexivity.
    - rewrite Hf by lia. apply (IH _ (S j)); [lia|lia|].
      rewrite <- app_assoc. f_equal.
      change (List.repeat (text, voice, rate_str) (S j))
        with ((text, voice, rate_str) :: List.repeat (text, voice, rate_str) j).
      rewrite List.repeat_cons. reflexivity. }
  rewrite (Gen _ _ 0%nat); [reflexivity| |lia|].
  - rewrite length_seq. unfold RETRY_COUNT in *. lia.
  - simpl. by rewrite app_nil_r.
Qed.

(** X2: repeating a request right after it was made costs no service
    call and gives the same audio, unless the first call fell back to
    silence, in which case nothing was cached and the cache is as before. *)
Theorem generate_tts_repeat (text : str) (voice rate_str : string)
    (c : gmap request audio) (hist : list request) :
  let '(a1, c1, h1) := generate_tts edge_tts text voice rate_str c hist in
  generate_tts edge_tts text voice rate_str c1 h1 = (a1, c1, h1) \/
  (c1 = c /\ c !! (text, voice, rate_str) = None /\ a1 = silent 500).
Proof.
  unfold generate_tts at 1.
  destruct (c !! (text, voice, rate_str)) as [a|] eqn:Hc.
  - left. unfold generate_tts. rewrite Hc. reflexivity.
  - destruct (tts_attempts edge_tts (seq 0 RETRY_COUNT) (text, voice, rate_str) hist)
      as [[a|] h'].
    + left. unfold generate_tts. rewrite lookup_insert_eq. reflexivity.
    + right. auto.
Qed.

End MoreEngine.

Lemma generate_tts_first_success_witness :
  generate_tts (fun h _ => if (List.length h =? 0)%nat then None else Some (List.repeat 1 300))
    short_line "v"%string "+0%"%string ∅ []
  = (List.repeat 1 300,
     <[(short_line, "v"%string, "+0%"%string) := List.repeat 1 300]> ∅,
     [] ++ List.repeat (short_line, "v"%string, "+0%"%string) 2).
Proof.
  apply (generate_tts_first_success
           (fun h _ => if (List.length h =? 0)%nat then None else Some (List.repeat 1 300))
           short_line "v"%string "+0%"%string ∅ [] 1 (List.repeat 1 300)).
  - reflexivity.
  - unfold RETRY_COUNT. lia.
  - intros j Hj. assert (j = 0%nat) as -> by lia. reflexivity.
  - reflexivity.
Defined.

Section MoreLoop.

Variable edge_tts : list request -> request -> option audio.
Variable effects_speedup : audio -> Q -> option audio.





Lemma generate_tts_cache_keeps (text : str) (voice rate_str : string)
    (c : gmap request audio) (hist : list request) (k : request) (a : audio) :
  c !! k = Some a ->
  (snd (fst (generate_tts edge_tts text voice rate_str c hist))) !! k = Some a.
Proof.
  intros H. unfold generate_tts.
  match goal with |- context [match ?x with Some _ => _ | None => _ end] =>
    destruct x as [b|] eqn:Hc end; [exact H|].
  destruct (tts_attempts _ _ _ _) as [[b|] h']; simpl; [|exact H].
  rewrite lookup_insert_ne; [exact H|]. intros E. subst k.
  assert (Some a = None) as X; [rewrite <- H; exact Hc|discriminate].
Qed.

Lemma loop_body_cache_keeps voice (sub : cue) (next : option cue) (st : tl_state)
    (k : request) (a : audio) :
  cache st !! k = Some a ->
  cache (loop_body edge_tts effects_speedup voice sub next st) !! k = Some a.
Proof.
  intros H. unfold loop_body. destruct (preprocess_text (sub_text sub)) as [|c0 cs]; [exact H|].
  unfold synth_cue. destruct (fill_gap_calls (srt_time_to_ms (sub_start sub)) st) as [_ Hk].
  destruct (_ <=? 0); [rewrite Hk; exact H|].
  match goal with |- context [generate_tts ?e ?t ?v ?rs ?c ?h] =>
    pose proof (generate_tts_cache_keeps t v rs c h k a) as Hl;
    destruct (generate_tts e t v rs c h) as [[raw c'] h'] end.
  cbn [snd fst cache] in *. apply Hl. rewrite Hk. exact H.
Qed.

(** X4: the synthesis cache of a job only grows: an entry present before
    any number of loop iterations is still there, with the same audio,
    afterwards (entries are never evicted or overwritten). *)
Theorem sync_loop_cache_monotone voice (subs : list cue) (st : tl_state)
    (k : request) (a : audio) :
  cache st !! k = Some a ->
  cache (sync_loop edge_tts effects_speedup voice subs st) !! k = Some a.
Proof.
  revert st. induction subs as [|x rest IH]; intros st H; simpl; [exact H|].
  apply IH, loop_body_cache_keeps, H.
Qed.

End MoreLoop.

Lemma sync_loop_cache_monotone_witness :
  cache (TlState (silent 0) 0 {[(short_line, "v"%string, "+20%"%string) := [1; 1]]} [])
    !! (short_line, "v"%string, "+20%"%string) = Some [1; 1] /\
  cache (sync_loop (tts_speaks 300) speedup_fails "v"%string
           [Cue 1 (at_ms 0) (at_ms 1000) short_line]
           (TlState (silent 0) 0 {[(short_line, "v"%string, "+20%"%string) := [1; 1]]} []))
    !! (short_line, "v"%string, "+20%"%string) = Some [1; 1].
Proof.
  assert (H : cache (TlState (silent 0) 0 {[(short_line, "v"%string, "+20%"%string) := [1; 1]]} [])
                !! (short_line, "v"%string, "+20%"%string) = Some [1; 1])
    by (simpl; apply lookup_singleton_eq).
  split; [exact H|].
  exact (sync_loop_cache_monotone (tts_speaks 300) speedup_fails "v"%string _ _ _ _ H).
Defined.

Section Placement.

Variable edge_tts : list request -> request -> option audio.
Variable effects_speedup : audio -> Q -> option audio.

Lemma synth_cue_pos_le voice text start_ms end_ms next (st : tl_state) :
  current_timeline_pos (synth_cue edge_tts effects_speedup voice text start_ms end_ms next st)
  <= current_timeline_pos st + Z.max 0 (strict_slot start_ms end_ms next).
Proof.
  unfold synth_cue.
  destruct (Z.leb_spec (strict_slot start_ms end_ms next) 0) as [Hs|Hs]; [lia|].
  destruct (generate_tts _ _ _ _ _ _) as [[raw c'] h']. cbn [current_timeline_pos].
  pose proof (fit_len_le effects_speedup raw _ Hs). lia.
Qed.

Lemma loop_body_pos_le voice (sub : cue) (next : option cue) (st : tl_state) :
  current_timeline_pos (loop_body edge_tts effects_speedup voice sub next st)
  <= Z.max (current_timeline_pos st) (srt_time_to_ms (sub_start sub))
     + Z.max 0 (strict_slot (srt_time_to_ms (sub_start sub)) (srt_time_to_ms (sub_end sub)) next).
Proof.
  unfold loop_body. destruct (preprocess_text (sub_text sub)) as [|c0 cs]; [lia|].
  etransitivity; [apply synth_cue_pos_le|]. rewrite fill_gap_pos. lia.
Qed.

(** X5: processing one cue moves the cursor at most to
    [max(cursor, start) + slot], the slot being [end - start] cut at the
    start of an overlapping next cue: a cue's speech never runs past its
    end time nor past the start of an overlapping successor. *)
Theorem cue_speech_within_slot voice (sub : cue) (next : option cue) (st : tl_state) :
  current_timeline_pos (loop_body edge_tts effects_speedup voice sub next st)
  <= Z.max (current_timeline_pos st) (srt_time_to_ms (sub_start sub))
     + Z.max 0 (strict_slot (srt_time_to_ms (sub_start sub)) (srt_time_to_ms (sub_end sub)) next).
Proof. apply loop_body_pos_le. Qed.






End Placement.





(** ** Text normalisation *)

Lemma In_skipn_In (A : Type) (n : nat) (l : list A) (x : A) :
  In x (List.skipn n l) -> In x l.
Proof.
  revert l. induction n as [|n IH]; intros [|y l] H; simpl in *; auto.
Qed.

Lemma py_replace_fuel_in (f : nat) (old new s : str) (c : Z) :
  In c (py_replace_fuel f old new s) -> In c s \/ In c new.
Proof.
  revert s. induction f as [|f IH]; intros s H; simpl in H; [auto|].
  destruct s as [|d s']; [destruct H|].
  destruct (is_prefix old (d :: s')).
  - apply in_app_or in H as [H|H]; [auto|].
    destruct (IH _ H) as [H'|H']; [left; eapply In_skipn_In; eauto|auto].
  - destruct H as [->|H]; [left; left; reflexivity|].
    destruct (IH _ H) as [H'|H']; [left; right; exact H'|auto].
Qed.

Lemma py_replace_in (old new s : str) (c : Z) :
  In c (py_replace old new s) -> In c s \/ In c new.
Proof. apply py_replace_fuel_in. Qed.

Lemma py_replace_delete_char (x : Z) (s : str) :
  py_replace [x] [] s = List.filter (fun c => negb (x =? c)) s.
Proof.
  unfold py_replace.
  assert (forall f s, (List.length s <= f)%nat ->
            py_replace_fuel f [x] [] s = List.filter (fun c => negb (x =? c)) s) as G.
  { induction f as [|f IH]; intros [|d s'] Hl; simpl in *; try lia; auto.
    destruct (Z.eqb_spec x d); simpl.
    - apply IH. lia.
    - f_equal. apply IH. lia. }
  apply G. lia.
Qed.

Lemma lstrip_in (s : str) (c : Z) : In c (lstrip s) -> In c s.
Proof.
  induction s as [|d s IH]; simpl; [auto|].
  destruct (py_isspace d); [intros H; right; auto|auto].
Qed.

Lemma py_strip_in (s : str) (c : Z) : In c (py_strip s) -> In c s.
Proof.
  unfold py_strip. intros H. apply in_rev in H. apply lstrip_in in H.
  apply in_rev in H. apply lstrip_in in H. exact H.
Qed.

(** X8: the text sent to synthesis never contains square brackets or
    parentheses: [preprocess_text] deletes every '[', ']', '(' and ')' and
    its later steps only add '\n' after full stops. *)
Theorem preprocess_removes_brackets (text : str) (c : Z) :
  In c (preprocess_text text) -> is_bracket c = false.
Proof.
  unfold preprocess_text. intros H.
  apply py_strip_in in H.
  apply py_replace_in in H as [H|H].
  2:{ simpl in H. destruct H as [<-|[<-|[]]]; reflexivity. }
  apply py_replace_in in H as [H|H].
  2:{ simpl in H. destruct H as [<-|[<-|[]]]; reflexivity. }
  assert (u "[" = [91]) as E1 by reflexivity. assert (u "]" = [93]) as E2 by reflexivity.
  assert (u "(" = [40]) as E3 by reflexivity. assert (u ")" = [41]) as E4 by reflexivity.
  rewrite E1, E2, E3, E4, !py_replace_delete_char in H.
  apply filter_In in H as [H H1]. apply filter_In in H as [H H2].
  apply filter_In in H as [H H3]. apply filter_In in H as [H H4].
  unfold is_bracket.
  apply negb_true_iff, Z.eqb_neq in H1, H2, H3, H4.
  destruct (Z.eqb_spec c 91); [lia|]. destruct (Z.eqb_spec c 93); [lia|].
  destruct (Z.eqb_spec c 40); [lia|]. destruct (Z.eqb_spec c 41); [lia|]. reflexivity.
Qed.

Lemma preprocess_removes_brackets_witness :
  In 72 (preprocess_text (u " [Hi] (there).")) /\ is_bracket 72 = false.
Proof.
  assert (H : In 72 (preprocess_text (u " [Hi] (there)."))) by (vm_compute; left; reflexivity).
  split; [exact H|]. exact (preprocess_removes_brackets _ _ H).
Defined.

Lemma lstrip_head (s : str) :
  match lstrip s with [] => True | c :: _ => py_isspace c = false end.
Proof.
  induction s as [|d s IH]; simpl; [exact I|].
  destruct (py_isspace d) eqn:E; [exact IH|exact E].
Qed.

Lemma lstrip_suffix (s : str) : exists d, s = d ++ lstrip s.
Proof.
  induction s as [|x s [d IH]]; simpl; [exists []; reflexivity|].
  destruct (py_isspace x).
  - exists (x :: d). simpl. rewrite <- IH. reflexivity.
  - exists []. reflexivity.
Qed.

(** X9: the text [preprocess_text] returns neither starts nor ends with a
    whitespace character (Python's [str.isspace]). *)
Theorem preprocess_trimmed (text : str) :
  match preprocess_text text with [] => True | c :: _ => py_isspace c = false end /\
  match List.rev (preprocess_text text) with [] => True | c :: _ => py_isspace c = false end.
Proof.
  unfold preprocess_text. set (s := py_replace _ _ _). clearbody s.
  unfold py_strip. split.
  - set (x := lstrip s).
    pose proof (lstrip_head s) as Hx. fold x in Hx.
    destruct (lstrip_suffix (List.rev x)) as [d Hd].
    assert (x = List.rev (lstrip (List.rev x)) ++ List.rev d) as Hp.
    { rewrite <- (List.rev_involutive x) at 1. rewrite Hd at 1.
      rewrite List.rev_app_distr. reflexivity. }
    destruct (List.rev (lstrip (List.rev x))) as [|c w]; [exact I|].
    rewrite Hp in Hx. exact Hx.
  - rewrite List.rev_involutive. apply lstrip_head.
Qed.

Lemma py_replace_absent (old new s : str) :
  match old with [] => False | o :: _ => ~ In o s end ->
  py_replace old new s = s.
Proof.
  destruct old as [|o old']; [intros []|]. intros Hn. unfold py_replace.
  assert (forall f s, ~ In o s -> py_replace_fuel f (o :: old') new s = s) as G.
  { induction f as [|f IH]; intros [|d s'] Hs; simpl; auto.
    destruct (Z.eqb_spec o d) as [->|Hne]; [exfalso; apply Hs; left; reflexivity|].
    simpl. f_equal. apply IH. intros H. apply Hs. right. exact H. }
  apply G, Hn.
Qed.

Lemma lstrip_all_space (s : str) :
  (forall c, In c s -> py_isspace c = true) -> lstrip s = [].
Proof.
  induction s as [|d s IH]; intros H; simpl; [reflexivity|].
  rewrite (H d (or_introl eq_refl)). apply IH. intros c Hc. apply H. right. exact Hc.
Qed.

(** X10: a cue whose text consists only of whitespace, square brackets and
    parentheses normalises to the empty text and is skipped outright: the
    iteration leaves the whole state unchanged (no silence is added for its
    gap, no synthesis call is made). *)
Theorem blank_cue_skipped edge_tts effects_speedup voice (sub : cue)
    (next : option cue) (st : tl_state) :
  (forall c, In c (sub_text sub) -> py_isspace c = true \/ is_bracket c = true) ->
  preprocess_text (sub_text sub) = [] /\
  loop_body edge_tts effects_speedup voice sub next st = st.
Proof.
  intros Hb.
  assert (preprocess_text (sub_text sub) = []) as E.
  { unfold preprocess_text. set (t := sub_text sub) in *. clearbody t.
    assert (~ In 60 t) as H60.
    { intros H. destruct (Hb _ H) as [H'|H']; discriminate. }
    rewrite (py_replace_absent (u "<b>")) by exact H60.
    rewrite (py_replace_absent (u "</b>")) by exact H60.
    rewrite (py_replace_absent (u "<i>")) by exact H60.
    rewrite (py_replace_absent (u "</i>")) by exact H60.
    assert (u "[" = [91]) as E1 by reflexivity. assert (u "]" = [93]) as E2 by reflexivity.
    assert (u "(" = [40]) as E3 by reflexivity. assert (u ")" = [41]) as E4 by reflexivity.
    rewrite E1, E2, E3, E4, !py_replace_delete_char.
    set (w := List.filter _ _).
    assert (forall c, In c w -> py_isspace c = true) as Hw.
    { intros c Hc. unfold w in Hc.
      apply filter_In in Hc as [Hc H1]. apply filter_In in Hc as [Hc H2].
      apply filter_In in Hc as [Hc H3]. apply filter_In in Hc as [Hc H4].
      destruct (Hb _ Hc) as [H|H]; [exact H|].
      apply negb_true_iff, Z.eqb_neq in H1, H2, H3, H4.
      unfold is_bracket in H.
      destruct (Z.eqb_spec c 91); [lia|]. destruct (Z.eqb_spec c 93); [lia|].
      destruct (Z.eqb_spec c 40); [lia|]. destruct (Z.eqb_spec c 41); [lia|]. discriminate. }
    clearbody w.
    rewrite (py_replace_absent [MM_SECTION]) by (intros H; specialize (Hw _ H); discriminate).
    rewrite (py_replace_absent (u ".")) by (intros H; specialize (Hw _ H); discriminate).
    unfold py_strip. rewrite (lstrip_all_space w Hw). reflexivity. }
  split; [exact E|]. unfold loop_body. rewrite E. reflexivity.
Qed.

Lemma blank_cue_skipped_witness :
  (forall c, In c (u " [ ] ( ) ") -> py_isspace c = true \/ is_bracket c = true) /\
  loop_body tts_down speedup_fails "v"%string (Cue 1 (at_ms 500) (at_ms 900) (u " [ ] ( ) ")) None
    init_state = init_state.
Proof.
  assert (Hb : forall c, In c (sub_text (Cue 1 (at_ms 500) (at_ms 900) (u " [ ] ( ) "))) ->
                 py_isspace c = true \/ is_bracket c = true).
  { intros c Hc. vm_compute in Hc.
    repeat (destruct Hc as [<-|Hc]; [vm_compute; auto|]). destruct Hc. }
  split; [exact Hb|].
  exact (proj2 (blank_cue_skipped tts_down speedup_fails "v"%string _ None init_state Hb)).
Defined.

(** ** Chat front end *)

(** *** Voice menu pages *)

Lemma py_slice_nonneg (A : Type) (l : list A) (i j : Z) :
  0 <= i <= j -> py_slice l i j = take (Z.to_nat (j - i)) (drop (Z.to_nat i) l).
Proof.
  intros Hij. unfold py_slice, py_slice_bound.
  destruct (Z.ltb_spec i 0); [lia|]. destruct (Z.ltb_spec j 0); [lia|].
  set (n := List.length l).
  destruct (Z.le_gt_cases (Z.of_nat n) i) as [Hi|Hi].
  - rewrite (Z.min_r i) by lia. rewrite Nat2Z.id.
    rewrite (drop_ge l n) by lia. rewrite (drop_ge l (Z.to_nat i)) by lia.
    rewrite !take_nil. reflexivity.
  - rewrite (Z.min_l i) by lia.
    destruct (Z.le_gt_cases j (Z.of_nat n)) as [Hj|Hj].
    + rewrite Z.min_l by lia. reflexivity.
    + rewrite Z.min_r by lia.
      rewrite !take_ge; [reflexivity| |]; rewrite length_drop; lia.
Qed.

Lemma page_items_eq (keys : list str) (p : Z) :
  0 <= p -> page_items keys p = take 10 (drop (Z.to_nat p * 10) keys).
Proof.
  intros Hp. unfold page_items, ITEMS_PER_PAGE.
  rewrite py_slice_nonneg by lia.
  replace (Z.to_nat (p * 10 + 10 - p * 10)) with 10%nat by lia.
  replace (Z.to_nat (p * 10)) with (Z.to_nat p * 10)%nat by lia. reflexivity.
Qed.

Lemma chunks_concat (keys : list str) (s m : nat) :
  concat (map (fun q => take 10 (drop (q * 10) keys)) (seq s m))
  = take (m * 10) (drop (s * 10) keys).
Proof.
  revert s. induction m as [|m IH]; intros s; [reflexivity|].
  cbn [seq map concat]. rewrite IH.
  replace (S s * 10)%nat with (s * 10 + 10)%nat by lia.
  rewrite <- drop_drop, take_take_drop. reflexivity.
Qed.

Lemma total_pages_bounds (n : Z) :
  0 <= n ->
  0 <= total_pages_of n /\ n <= 10 * total_pages_of n /\ 10 * (total_pages_of n - 1) < n.
Proof.
  intros Hn. unfold total_pages_of, ITEMS_PER_PAGE.
  pose proof (Z.div_mod (- n) 10 ltac:(lia)) as Hd.
  pose proof (Z.mod_pos_bound (- n) 10 ltac:(lia)) as Hm.
  lia.
Qed.

Lemma In_take_In (A : Type) (n : nat) (l : list A) (x : A) :
  In x (take n l) -> In x l.
Proof.
  intros H. rewrite <- (take_drop n l). apply in_or_app. left. exact H.
Qed.

(** *** Voice rows *)

Lemma voice_rows_concat (items : list str) :
  concat (voice_rows items) = map voice_button items.
Proof.
  revert items. fix IH 1. intros [|a [|b t]]; [reflexivity|reflexivity|].
  cbn [voice_rows concat map]. rewrite IH. reflexivity.
Qed.

Lemma voice_rows_width (items : list str) :
  (forall r, In r (voice_rows items) -> (1 <= List.length r <= 2)%nat) /\
  (forall r, In r (removelast (voice_rows items)) -> List.length r = 2%nat).
Proof.
  revert items. fix IH 1. intros [|a [|b t]].
  - split; intros r Hr; simpl in Hr; destruct Hr.
  - split; intros r Hr; simpl in Hr; [destruct Hr as [<-|[]]; simpl; lia | destruct Hr].
  - destruct (IH t) as [IH1 IH2]. split.
    + intros r [<-|Hr]; [simpl; lia|]. apply IH1, Hr.
    + intros r Hr. cbn [voice_rows] in Hr.
      destruct (voice_rows t) as [|r1 rs] eqn:E.
      * simpl in Hr. destruct Hr.
      * change (removelast ([voice_button a; voice_button b] :: r1 :: rs))
          with ([voice_button a; voice_button b] :: removelast (r1 :: rs)) in Hr.
        destruct Hr as [<-|Hr]; [reflexivity|]. apply IH2, Hr.
Qed.

(** X11: [show_voice_page] splits the voice list into
    [ceil(len/10)] pages: pages [0 .. total_pages - 1], read in order,
    list every voice exactly once in catalog order, each of them holds
    between 1 and 10 voices, and any page number past the last shows no
    voice. *)
Theorem voice_pages_partition (keys : list str) :
  concat (map (fun p => page_items keys (Z.of_nat p))
            (seq 0 (Z.to_nat (total_pages_of (Z.of_nat (List.length keys)))))) = keys /\
  (forall p, 0 <= p < total_pages_of (Z.of_nat (List.length keys)) ->
     (1 <= List.length (page_items keys p) <= 10)%nat) /\
  (forall p, total_pages_of (Z.of_nat (List.length keys)) <= p -> page_items keys p = []).
Proof.
  destruct (total_pages_bounds (Z.of_nat (List.length keys)) ltac:(lia)) as [H0 [H1 H2]].
  set (T := total_pages_of (Z.of_nat (List.length keys))) in *. clearbody T.
  split; [|split].
  - rewrite (map_ext_in _ (fun q => take 10 (drop (q * 10) keys))).
    + rewrite chunks_concat. rewrite take_ge; [reflexivity|]. rewrite length_drop. lia.
    + intros q _. rewrite page_items_eq by lia. rewrite Nat2Z.id. reflexivity.
  - intros p Hp. rewrite page_items_eq by lia. rewrite length_take, length_drop. lia.
  - intros p Hp. rewrite page_items_eq by lia. rewrite drop_ge; [reflexivity|]. lia.
Qed.

(** X12: every page of the voice menu is a sequence of voice rows followed
    by the navigation row; the voice rows hold, in order, one button per
    voice of the page, labelled with the voice's name and carrying
    ["set_" + name]; every row has one or two buttons and all rows but the
    last have two. *)
Theorem voice_page_layout (keys : list str) (p : Z) :
  exists rows,
    voice_page_markup keys p
      = rows ++ [nav_row p (total_pages_of (Z.of_nat (List.length keys)))] /\
    concat rows = map voice_button (page_items keys p) /\
    (forall r, In r rows -> (1 <= List.length r <= 2)%nat) /\
    (forall r, In r (removelast rows) -> List.length r = 2%nat).
Proof.
  exists (voice_rows (page_items keys p)). split; [reflexivity|].
  split; [apply voice_rows_concat|]. apply voice_rows_width.
Qed.

(** *** Button presses *)

Lemma is_prefix_app (p s : str) : is_prefix p (p ++ s) = true.
Proof. induction p as [|c p IH]; simpl; [reflexivity|]. rewrite Z.eqb_refl. exact IH. Qed.

Lemma py_contains_cons (needle : str) (c : Z) (t : str) :
  py_contains needle (c :: t) = false ->
  is_prefix needle (c :: t) = false /\ py_contains needle t = false.
Proof. simpl. intros H. apply orb_false_iff in H. exact H. Qed.

Lemma py_replace_fuel_no_occ (f : nat) (old new s : str) :
  py_contains old s = false -> py_replace_fuel f old new s = s.
Proof.
  revert s. induction f as [|f IH]; intros [|c t] H; [reflexivity..|].
  destruct (py_contains_cons old c t H) as [H1 H2].
  cbn [py_replace_fuel]. rewrite H1. f_equal. apply IH, H2.
Qed.

(** [(old + k).replace(old, "")] is [k] when [old] does not occur in [k]. *)
Lemma py_replace_prefix (old k : str) :
  old <> [] -> py_contains old k = false -> py_replace old [] (old ++ k) = k.
Proof.
  intros Hne Hk. destruct old as [|o old']; [congruence|].
  unfold py_replace.
  change (List.length ((o :: old') ++ k)) with (S (List.length (old' ++ k))).
  change ((o :: old') ++ k) with (o :: (old' ++ k)).
  cbn [py_replace_fuel].
  change (o :: old' ++ k) with ((o :: old') ++ k).
  rewrite (is_prefix_app (o :: old') k). cbn [app].
  change (List.skipn (List.length (o :: old')) (o :: old' ++ k)) with (List.skipn (List.length old') (old' ++ k)).
  rewrite List.skipn_app, List.skipn_all, Nat.sub_diag.
  apply py_replace_fuel_no_occ, Hk.
Qed.

Lemma dict_get_some (k : str) (d : list (str * string)) (v : string) :
  dict_get k d = Some v -> In (k, v) d.
Proof.
  induction d as [|[k' v'] d IH]; simpl; [discriminate|].
  case_bool_decide as E; [intros [= <-]; subst; left; reflexivity|].
  intros H. right. apply IH, H.
Qed.

Lemma dict_get_in (k : str) (d : list (str * string)) :
  In k (map fst d) -> exists v, dict_get k d = Some v.
Proof.
  induction d as [|[k' v'] d IH]; simpl; [intros []|].
  case_bool_decide as E; [eauto|]. intros [->|H]; [congruence|]. apply IH, H.
Qed.

Lemma page_not_set (s : str) : is_prefix (u "page_") (u "set_" ++ s) = false.
Proof. reflexivity. Qed.

Lemma set_not_page (s : str) : is_prefix (u "set_") (u "page_" ++ s) = false.
Proof. reflexivity. Qed.

Lemma button_handler_set (py_int : str -> option Z) (catalog : list (str * string))
    (k : str) (v : string) (ud : user_data) :
  py_contains (u "set_") k = false ->
  dict_get k catalog = Some v ->
  button_handler py_int catalog (u "set_" ++ k) ud =
    (UserData (Some v) (ud_srt_text_mode ud),
     [AnswerQuery (Some (u "Selected: " ++ k)); EditMessage (voice_set_msg k)], false).
Proof.
  intros Hk Hv. unfold button_handler.
  rewrite page_not_set, is_prefix_app, py_replace_prefix, Hv by (done || exact Hk).
  reflexivity.
Qed.

(** X13: every voice button of every menu page works: given that no
    catalog name contains ["set_"] (which [data.replace("set_", "")] would
    also delete), pressing a button of the menu either navigates (its data
    starts with ["page_"] or is ["noop"]) or selects the voice listed under
    the button's label: [user_data["voice"]] becomes that voice, the
    text-mode flag is kept, and the bot answers and confirms. *)
Theorem voice_button_selects (py_int : str -> option Z) (catalog : list (str * string))
    (p : Z) (b : button) (ud : user_data) :
  forallb (fun k => negb (py_contains (u "set_") k)) (map fst catalog) = true ->
  In b (concat (voice_page_markup (map fst catalog) p)) ->
  is_prefix (u "page_") (btn_data b) = true \/ btn_data b = u "noop" \/
  exists v, dict_get (btn_text b) catalog = Some v /\ In (btn_text b, v) catalog /\
    button_handler py_int catalog (btn_data b) ud =
      (UserData (Some v) (ud_srt_text_mode ud),
       [AnswerQuery (Some (u "Selected: " ++ btn_text b)); EditMessage (voice_set_msg (btn_text b))],
       false).
Proof.
  intros Hc Hb. unfold voice_page_markup in Hb.
  rewrite concat_app, voice_rows_concat in Hb. apply in_app_iff in Hb as [Hb|Hb].
  - right. right. apply in_map_iff in Hb as [k [<- Hk]].
    unfold page_items, py_slice in Hk.
    apply In_take_In, In_skipn_In in Hk.
    rewrite forallb_forall in Hc. specialize (Hc k Hk).
    apply negb_true_iff in Hc.
    destruct (dict_get_in k catalog Hk) as [v Hv].
    exists v. split; [exact Hv|]. split; [apply dict_get_some, Hv|].
    apply button_handler_set; assumption.
  - cbn [concat] in Hb. rewrite app_nil_r in Hb. unfold nav_row in Hb.
    rewrite !in_app_iff in Hb.
    destruct Hb as [Hb|[Hb|Hb]];
      [destruct (0 <? p) | |
       destruct (p <? total_pages_of (Z.of_nat (List.length (map fst catalog))) - 1)];
      cbn [In] in Hb; repeat destruct Hb as [<-|Hb]; try contradiction;
      cbn [btn_data]; first [left; reflexivity | right; left; reflexivity].
Qed.

Lemma voice_button_selects_witness :
  let b := voice_button ([127462; 127482] ++ u " AU Female (Natasha)") in
  forallb (fun k => negb (py_contains (u "set_") k)) (map fst VOICE_CATALOG) = true /\
  In b (concat (voice_page_markup (map fst VOICE_CATALOG) 1)) /\
  (is_prefix (u "page_") (btn_data b) = true \/ btn_data b = u "noop" \/
   exists v, dict_get (btn_text b) VOICE_CATALOG = Some v /\ In (btn_text b, v) VOICE_CATALOG /\
     button_handler (fun _ => None) VOICE_CATALOG (btn_data b) (UserData None None) =
       (UserData (Some v) None,
        [AnswerQuery (Some (u "Selected: " ++ btn_text b)); EditMessage (voice_set_msg (btn_text b))],
        false)).
Proof.
  intros b. subst b.
  assert (H1 : forallb (fun k => negb (py_contains (u "set_") k)) (map fst VOICE_CATALOG) = true)
    by (vm_compute; reflexivity).
  assert (H2 : In (voice_button ([127462; 127482] ++ u " AU Female (Natasha)"))
                  (concat (voice_page_markup (map fst VOICE_CATALOG) 1)))
    by (vm_compute; left; reflexivity).
  split; [exact H1|]. split; [exact H2|].
  exact (voice_button_selects (fun _ => None) VOICE_CATALOG 1 _ (UserData None None) H1 H2).
Defined.

Lemma digits_rev_range (f : nat) (n : Z) (c : Z) :
  0 <= n -> In c (digits_rev f n) -> 48 <= c <= 57.
Proof.
  revert n. induction f as [|f IH]; intros n Hn H; simpl in H; [contradiction|].
  destruct H as [<-|H].
  - pose proof (Z.mod_pos_bound n 10 ltac:(lia)). lia.
  - destruct (n <? 10); [contradiction|].
    apply (IH (n / 10)); [apply Z.div_pos; lia | exact H].
Qed.

Lemma py_str_Z_chars (n c : Z) : In c (py_str_Z n) -> c = 45 \/ 48 <= c <= 57.
Proof.
  unfold py_str_Z. intros H.
  assert (forall d, In c (rev d) -> d = digits_rev (S (Z.to_nat (Z.log2 (Z.abs n)))) (Z.abs n) ->
            48 <= c <= 57) as G.
  { intros d Hd ->. apply in_rev in Hd. eapply digits_rev_range; [|exact Hd]. lia. }
  destruct (n <? 0).
  - destruct H as [<-|H]; [left; reflexivity|]. right. eapply G; [exact H|reflexivity].
  - right. eapply G; [exact H|reflexivity].
Qed.

Lemma py_split_char_none (sep : Z) (s : str) :
  (forall c, In c s -> c <> sep) -> py_split_char sep s = [s].
Proof.
  induction s as [|c t IH]; intros H; [reflexivity|].
  cbn [py_split_char]. rewrite IH by (intros d Hd; apply H; right; exact Hd).
  destruct (Z.eqb_spec c sep) as [E|_];
    [exfalso; apply (H c); [left; reflexivity | exact E] | reflexivity].
Qed.

Lemma button_handler_page (py_int : str -> option Z) (catalog : list (str * string))
    (q : Z) (ud : user_data) :
  py_int (py_str_Z q) = Some q ->
  button_handler py_int catalog (u "page_" ++ py_str_Z q) ud =
    (ud, [AnswerQuery None; EditMarkup SELECT_VOICE_MSG (voice_page_markup (map fst catalog) q)],
     false).
Proof.
  intros Hq. unfold button_handler. rewrite is_prefix_app.
  assert (py_split_char 95 (py_str_Z q) = [py_str_Z q]) as Hs.
  { apply py_split_char_none. intros c Hc. apply py_str_Z_chars in Hc. lia. }
  change (u "page_" ++ py_str_Z q) with (112 :: 97 :: 103 :: 101 :: 95 :: py_str_Z q).
  cbn [py_split_char]. rewrite Hs. cbn -[voice_page_markup]. rewrite Hq. reflexivity.
Qed.

(** X14: the Back and Next buttons of page [p] of the menu (for [p] a
    page that exists) lead to page [p - 1] or [p + 1], which exists too: the
    press answers the query and redraws the menu at that page; the page
    label's ["noop"] is the only other navigation button.  Assumed of
    Python's [int]: it reads back the decimal [str] of those two numbers. *)
Theorem nav_buttons_stay_in_range (py_int : str -> option Z) (catalog : list (str * string))
    (p : Z) (b : button) (ud : user_data) :
  0 <= p < total_pages_of (Z.of_nat (List.length (map fst catalog))) ->
  py_int (py_str_Z (p - 1)) = Some (p - 1) ->
  py_int (py_str_Z (p + 1)) = Some (p + 1) ->
  In b (nav_row p (total_pages_of (Z.of_nat (List.length (map fst catalog))))) ->
  btn_data b = u "noop" \/
  exists q, (q = p - 1 \/ q = p + 1) /\
    0 <= q < total_pages_of (Z.of_nat (List.length (map fst catalog))) /\
    button_handler py_int catalog (btn_data b) ud =
      (ud, [AnswerQuery None; EditMarkup SELECT_VOICE_MSG (voice_page_markup (map fst catalog) q)],
       false).
Proof.
  intros Hp Hm Hn Hb.
  set (T := total_pages_of (Z.of_nat (List.length (map fst catalog)))) in *.
  unfold nav_row in Hb. rewrite !in_app_iff in Hb.
  destruct Hb as [Hb|[Hb|Hb]].
  - destruct (Z.ltb_spec 0 p); cbn [In] in Hb; [|contradiction].
    destruct Hb as [<-|[]]. right. exists (p - 1).
    split; [left; reflexivity|]. split; [lia|]. apply button_handler_page, Hm.
  - destruct Hb as [<-|[]]. left. reflexivity.
  - destruct (Z.ltb_spec p (T - 1)); cbn [In] in Hb; [|contradiction].
    destruct Hb as [<-|[]]. right. exists (p + 1).
    split; [right; reflexivity|]. split; [lia|]. apply button_handler_page, Hn.
Qed.

Lemma nav_buttons_stay_in_range_witness :
  let py_int := fun s => if bool_decide (s = py_str_Z 0) then Some 0
                         else if bool_decide (s = py_str_Z 2) then Some 2 else None in
  let b := Button (u "Next " ++ [10145; 65039]) (u "page_" ++ py_str_Z 2) in
  (0 <= 1 < total_pages_of (Z.of_nat (List.length (map fst VOICE_CATALOG)))) /\
  py_int (py_str_Z (1 - 1)) = Some (1 - 1) /\
  py_int (py_str_Z (1 + 1)) = Some (1 + 1) /\
  In b (nav_row 1 (total_pages_of (Z.of_nat (List.length (map fst VOICE_CATALOG))))) /\
  (btn_data b = u "noop" \/
   exists q, (q = 1 - 1 \/ q = 1 + 1) /\
     0 <= q < total_pages_of (Z.of_nat (List.length (map fst VOICE_CATALOG))) /\
     button_handler py_int VOICE_CATALOG (btn_data b) (UserData None None) =
       (UserData None None,
        [AnswerQuery None; EditMarkup SELECT_VOICE_MSG (voice_page_markup (map fst VOICE_CATALOG) q)],
        false)).
Proof.
  intros py_int b.
  assert (Hp : 0 <= 1 < total_pages_of (Z.of_nat (List.length (map fst VOICE_CATALOG))))
    by (vm_compute; split; congruence).
  assert (Hm : py_int (py_str_Z (1 - 1)) = Some (1 - 1)) by reflexivity.
  assert (Hn : py_int (py_str_Z (1 + 1)) = Some (1 + 1)) by reflexivity.
  assert (Hb : In b (nav_row 1 (total_pages_of (Z.of_nat (List.length (map fst VOICE_CATALOG))))))
    by (subst b; vm_compute; right; right; left; reflexivity).
  split; [exact Hp|]. split; [exact Hm|]. split; [exact Hn|]. split; [exact Hb|].
  exact (nav_buttons_stay_in_range py_int VOICE_CATALOG 1 b (UserData None None) Hp Hm Hn Hb).
Defined.

Lemma button_handler_voice (py_int : str -> option Z) (catalog : list (str * string))
    (data : str) (ud : user_data) :
  ud_voice (fst (fst (button_handler py_int catalog data ud))) = ud_voice ud \/
  exists k v, In (k, v) catalog /\
    ud_voice (fst (fst (button_handler py_int catalog data ud))) = Some v.
Proof.
  unfold button_handler. repeat case_match; cbn [fst ud_voice]; auto.
  right. eexists _, _. split; [eapply dict_get_some; eassumption|reflexivity].
Qed.

Lemma text_job_voice_route (ud : user_data) (msg : str) :
  text_job_voice (handle_text_route ud msg) = user_voice ud.
Proof. unfold handle_text_route. destruct (_ && _); reflexivity. Qed.

(** X15: whatever /start commands and button presses a user sends, in
    any order, the voice [handle_srt] and [handle_text] read from
    [user_data] (with the default [DEFAULT_VOICE]) is always one of the
    catalog's voices: a press only ever stores a voice looked up in
    [VOICE_CATALOG]. *)
Theorem jobs_use_catalog_voice (py_int : str -> option Z) (evs : list ui_event) (msg : str) :
  In (user_voice (fold_left (apply_event py_int) evs (UserData None None)))
     (map snd VOICE_CATALOG) /\
  In (text_job_voice (handle_text_route (fold_left (apply_event py_int) evs (UserData None None)) msg))
     (map snd VOICE_CATALOG).
Proof.
  assert (In DEFAULT_VOICE (map snd VOICE_CATALOG)) as Hd by (left; reflexivity).
  assert (forall ud, match ud_voice ud with
                     | None => True | Some v => In v (map snd VOICE_CATALOG) end ->
                     In (user_voice ud) (map snd VOICE_CATALOG)) as Hu.
  { intros [[v|] m]; unfold user_voice; simpl; auto. }
  assert (forall ud, match ud_voice ud with
                     | None => True | Some v => In v (map snd VOICE_CATALOG) end ->
          match ud_voice (fold_left (apply_event py_int) evs ud) with
          | None => True | Some v => In v (map snd VOICE_CATALOG) end) as Hi.
  { induction evs as [|e evs IH]; intros ud H; simpl; [exact H|].
    apply IH. destruct e as [|data]; cbn [apply_event start_user_data ud_voice]; [exact Hd|].
    destruct (button_handler_voice py_int VOICE_CATALOG data ud) as [E|[k [v [Hin E]]]];
      rewrite E; [exact H|]. apply in_map_iff. exists (k, v). auto. }
  rewrite text_job_voice_route. split; apply Hu, Hi; exact I.
Qed.

Lemma button_handler_srtsms (py_int : str -> option Z) (catalog : list (str * string))
    (ud : user_data) :
  button_handler py_int catalog (u "cmd_srtsms") ud =
    (UserData (ud_voice ud) (Some true), [AnswerQuery None; EditMessage text_mode_msg], false).
Proof. reflexivity. Qed.

(** X16: /start turns copy-paste mode off and resets the voice, so a text
    message is then spoken with [DEFAULT_VOICE]; after choosing a catalog
    voice, text messages are spoken with that voice; and after also
    pressing "Copy-Paste SRT Mode", a message that contains ["-->"] once
    stripped is dubbed as subtitles with that voice, any other is still
    spoken. *)
Theorem select_then_send_text (py_int : str -> option Z) (ud : user_data)
    (k : str) (v : string) (msg : str) :
  dict_get k VOICE_CATALOG = Some v ->
  py_contains (u "set_") k = false ->
  handle_text_route (fold_left (apply_event py_int) [Start] ud) msg
    = SpeakText DEFAULT_VOICE (py_strip msg) /\
  handle_text_route (fold_left (apply_event py_int) [Start; Press (u "set_" ++ k)] ud) msg
    = SpeakText v (py_strip msg) /\
  handle_text_route
    (fold_left (apply_event py_int) [Start; Press (u "set_" ++ k); Press (u "cmd_srtsms")] ud) msg
    = (if py_contains (u "-->") (py_strip msg)
       then DubSrtText v (py_strip msg) else SpeakText v (py_strip msg)).
Proof.
  intros Hv Hk. cbn [fold_left apply_event].
  rewrite (button_handler_set py_int VOICE_CATALOG k v _ Hk Hv). cbn [fst].
  rewrite button_handler_srtsms. cbn [fst].
  split; [reflexivity|]. split; [reflexivity|].
  unfold handle_text_route. cbn [ud_srt_text_mode ud_voice user_voice andb]. reflexivity.
Qed.

Lemma select_then_send_text_witness :
  let k := [127482; 127480] ++ u " US Male (Guy)" in
  let v := "en-US-GuyNeural"%string in
  let ud := UserData None (Some true) in
  let msg := u " 1" ++ [10] ++ u "00:00:01,000 --> 00:00:02,000" ++ [10] ++ u "Hi " in
  dict_get k VOICE_CATALOG = Some v /\
  py_contains (u "set_") k = false /\
  handle_text_route (fold_left (apply_event (fun _ => None)) [Start] ud) msg
    = SpeakText DEFAULT_VOICE (py_strip msg) /\
  handle_text_route (fold_left (apply_event (fun _ => None)) [Start; Press (u "set_" ++ k)] ud) msg
    = SpeakText v (py_strip msg) /\
  handle_text_route
    (fold_left (apply_event (fun _ => None)) [Start; Press (u "set_" ++ k); Press (u "cmd_srtsms")] ud)
    msg
    = (if py_contains (u "-->") (py_strip msg)
       then DubSrtText v (py_strip msg) else SpeakText v (py_strip msg)).
Proof.
  intros k v ud msg.
  assert (Hv : dict_get k VOICE_CATALOG = Some v) by (vm_compute; reflexivity).
  assert (Hk : py_contains (u "set_") k = false) by (vm_compute; reflexivity).
  split; [exact Hv|]. split; [exact Hk|].
  exact (select_then_send_text (fun _ => None) ud k v msg Hv Hk).
Defined.

(** X17: of the three buttons [start] offers, "Select Voice" opens page 0
    of the voice menu and "Copy-Paste SRT Mode" switches text mode on, but
    "Help" ([cmd_help]) matches no branch of [button_handler]: its press
    changes nothing and is never answered. *)
Theorem start_menu_buttons (py_int : str -> option Z) (catalog : list (str * string))
    (ud : user_data) :
  py_int (u "0") = Some 0 ->
  map (fun b => button_handler py_int catalog (btn_data b) ud) (concat start_keyboard) =
  [(ud, [AnswerQuery None; EditMarkup SELECT_VOICE_MSG (voice_page_markup (map fst catalog) 0)],
    false);
   (UserData (ud_voice ud) (Some true), [AnswerQuery None; EditMessage text_mode_msg], false);
   (ud, [], false)].
Proof.
  intros H0. cbn [concat start_keyboard app map btn_data].
  change (u "page_0") with (u "page_" ++ py_str_Z 0).
  rewrite button_handler_page by exact H0.
  rewrite button_handler_srtsms. reflexivity.
Qed.

Lemma start_menu_buttons_witness :
  (fun _ : str => Some 0) (u "0") = Some 0 /\
  map (fun b => button_handler (fun _ => Some 0) VOICE_CATALOG (btn_data b) (UserData None None))
      (concat start_keyboard) =
  [(UserData None None,
    [AnswerQuery None; EditMarkup SELECT_VOICE_MSG (voice_page_markup (map fst VOICE_CATALOG) 0)],
    false);
   (UserData None (Some true), [AnswerQuery None; EditMessage text_mode_msg], false);
   (UserData None None, [], false)].
Proof.
  split; [reflexivity|].
  exact (start_menu_buttons (fun _ => Some 0) VOICE_CATALOG (UserData None None) eq_refl).
Defined.

(** ** Cue times *)

(** X18: on SubRip times with fields in their usual ranges (minutes and
    seconds below 60, milliseconds below 1000, none negative),
    [srt_time_to_ms] is faithful to the timestamp: two times give the same
    millisecond count only if they are the same time, and one count is
    smaller exactly when the time is earlier in hours, then minutes, then
    seconds, then milliseconds. *)
Theorem srt_time_to_ms_order (t1 t2 : srt_time) :
  time_normalized t1 = true -> time_normalized t2 = true ->
  (srt_time_to_ms t1 = srt_time_to_ms t2 -> t1 = t2) /\
  (srt_time_to_ms t1 < srt_time_to_ms t2 <->
   hours t1 < hours t2 \/
   (hours t1 = hours t2 /\
    (minutes t1 < minutes t2 \/
     (minutes t1 = minutes t2 /\
      (seconds t1 < seconds t2 \/
       (seconds t1 = seconds t2 /\ milliseconds t1 < milliseconds t2)))))).
Proof.
  destruct t1 as [h1 m1 s1 ms1], t2 as [h2 m2 s2 ms2].
  unfold time_normalized, srt_time_to_ms. cbn [hours minutes seconds milliseconds].
  intros H1 H2.
  repeat (apply andb_prop in H1 as [H1 ?]). repeat (apply andb_prop in H2 as [H2 ?]).
  repeat match goal with
         | H : (_ <=? _) = true |- _ => apply Z.leb_le in H
         | H : (_ <? _) = true |- _ => apply Z.ltb_lt in H
         end.
  split.
  - intros E. assert (h1 = h2) as -> by lia. assert (m1 = m2) as -> by lia.
    assert (s1 = s2) as -> by lia. assert (ms1 = ms2) as -> by lia. reflexivity.
  - lia.
Qed.

Lemma srt_time_to_ms_order_witness :
  time_normalized (SrtTime 0 1 5 250) = true /\ time_normalized (SrtTime 0 0 59 999) = true /\
  srt_time_to_ms (SrtTime 0 0 59 999) < srt_time_to_ms (SrtTime 0 1 5 250).
Proof.
  assert (H1 : time_normalized (SrtTime 0 0 59 999) = true) by reflexivity.
  assert (H2 : time_normalized (SrtTime 0 1 5 250) = true) by reflexivity.
  split; [exact H2|]. split; [exact H1|].
  apply (proj2 (proj2 (srt_time_to_ms_order _ _ H1 H2))).
  cbn [hours minutes seconds milliseconds]. lia.
Defined.
